(** * Svelte vs Vue comparison page: normalisation and view composition

    The page [src/routes/+page.svelte] holds a constant array [sections]
    and a template that walks it.  Every text of the array goes through
    [dedent] before it reaches a component ([Markdown], [HighlightSvelte],
    [HighlightAuto]).  This development embeds

    - the indentation normaliser ([Module Dedent]),
    - the content model ([Module Content]),
    - the template as a program in a small state-and-exception monad
      ([Module Composer]),

    and states the properties of the page over these definitions. *)

From Stdlib Require Import String Ascii List Arith Lia Bool.
Import ListNotations.
Open Scope list_scope.
Open Scope string_scope.

(** ** Indentation normaliser *)

Module Dedent.

(** The line separator, U+000A. *)
Definition nl : ascii := "010"%char.

(** The whitespace of the regular expression class [\s] and of
    [String.prototype.trim], as far as single bytes go: U+0009 to U+000D
    and the space.  The texts of the page are ASCII. *)
Definition is_space (c : ascii) : bool :=
  let n := nat_of_ascii c in
  (((9 <=? n)%nat && (n <=? 13)%nat) || (n =? 32)%nat)%bool.

(** The characters that make a line subject to the cut: the space and
    the horizontal tab. *)
Definition is_indent_char (c : ascii) : bool :=
  ((c =? " ")%char || (c =? "009")%char)%bool.

(** Split into lines, keeping empty lines.  A text with [n] separators
    has [n + 1] lines, so the empty text is one empty line. *)
Fixpoint split_lines (s : string) : list string :=
  match s with
  | EmptyString => [EmptyString]
  | String c rest =>
      if (c =? nl)%char then EmptyString :: split_lines rest
      else match split_lines rest with
           | l :: ls => String c l :: ls
           | [] => [String c EmptyString]
           end
  end.

Definition join_lines (ls : list string) : string :=
  String.concat (String nl EmptyString) ls.

(** Number of leading whitespace characters of a line. *)
Fixpoint leading (l : string) : nat :=
  match l with
  | String c r => if is_space c then S (leading r) else 0
  | EmptyString => 0
  end.

(** A text is blank when it is entirely whitespace (the empty text
    included). *)
Fixpoint blank (l : string) : bool :=
  match l with
  | String c r => (is_space c && blank r)%bool
  | EmptyString => true
  end.

(** The indentation a line contributes: the length of its leading
    whitespace when that is not zero and the line is not blank.  A line
    that starts with a non-whitespace character contributes nothing. *)
Definition matched (l : string) : option nat :=
  if (negb (leading l =? 0)%nat && negb (blank l))%bool
  then Some (leading l)
  else None.

(** One round of the loop over the lines: the first indented line sets
    the minimum, the later ones lower it. *)
Definition note_indent (mindent : option nat) (l : string) : option nat :=
  match matched l with
  | Some indent =>
      match mindent with
      | None | Some 0 => Some indent
      | Some m => Some (Nat.min m indent)
      end
  | None => mindent
  end.

(** The minimum indentation over the indented non-blank lines; none when
    there is no such line. *)
Definition mindent (ls : list string) : option nat :=
  fold_left note_indent ls None.

(** [l.slice(n)]: the line without its first [n] characters. *)
Fixpoint slice (n : nat) (l : string) : string :=
  match n, l with
  | S n', String _ r => slice n' r
  | _, _ => l
  end.

(** A line that begins with a space or a tab loses its first [m]
    characters; any other line is kept. *)
Definition cut (m : nat) (l : string) : string :=
  match l with
  | String c _ => if is_indent_char c then slice m l else l
  | EmptyString => l
  end.

(** The lines after the cut. *)
Definition cut_lines (ls : list string) : list string :=
  match mindent ls with
  | Some m => map (cut m) ls
  | None => ls
  end.

Fixpoint trim_start (s : string) : string :=
  match s with
  | String c r => if is_space c then trim_start r else s
  | EmptyString => EmptyString
  end.

Fixpoint trim_end (s : string) : string :=
  match s with
  | String c r =>
      match trim_end r with
      | EmptyString => if is_space c then EmptyString else String c EmptyString
      | r' => String c r'
      end
  | EmptyString => EmptyString
  end.

(** All whitespace at both ends of a text is removed. *)
Definition trim (s : string) : string := trim_end (trim_start s).

(** Modelled from the spec: [dedent] is the default export of the npm
    package [dedent], imported at line 6 of [+page.svelte]; its source is
    not part of the repository, only its call sites in the template are.
    The definition follows the steps of the specification's indentation
    normaliser: split into lines, take the minimum indentation, remove it
    from the lines, trim the ends.  Where the sentences of the
    specification disagree with each other (one blank line or all of them
    at an end, all-blank texts), the definition takes the reading under
    which its contract and its edge cases hold, which is what the package
    does when it is called on a string: the minimum is taken over the
    lines that have indentation and are not blank, the lines that begin
    with a space or a tab lose that many characters, and all whitespace at
    both ends of the result is removed. *)
Definition dedent (s : string) : string :=
  let lines := split_lines s in
  let result :=
    match mindent lines with
    | Some m => join_lines (map (cut m) lines)
    | None => s
    end in
  trim result.

(** The lines strictly between the first and the last one. *)
Definition interior (ls : list string) : list string :=
  removelast (tl ls).

(** The characters of the lines, counting one separator per line. *)
Fixpoint size (ls : list string) : nat :=
  match ls with
  | [] => 0
  | l :: r => S (String.length l + size r)
  end.

(** No line break inside a line. *)
Fixpoint no_nl (l : string) : bool :=
  match l with
  | String c r => (negb (c =? nl)%char && no_nl r)%bool
  | EmptyString => true
  end.

(** The first character of a text is whitespace. *)
Definition begins_blank (s : string) : bool :=
  match s with
  | String c _ => is_space c
  | EmptyString => false
  end.

(** The last character of a text is whitespace. *)
Fixpoint ends_blank (s : string) : bool :=
  match s with
  | String c EmptyString => is_space c
  | String _ r => ends_blank r
  | EmptyString => false
  end.

(** A line that begins with a space or a tab. *)
Definition starts_indented (l : string) : bool :=
  match l with
  | String c _ => is_indent_char c
  | EmptyString => false
  end.

(** A non-blank line that begins with a space or a tab. *)
Definition indented (l : string) : bool :=
  (starts_indented l && negb (blank l))%bool.

End Dedent.

(** ** Content model *)

Module Content.

(** One framework's rendition of an idiom.  In the page every variant
    object has a [code] string; [notes] is read under [{#if ...}], so it
    may be missing ([None] stands for [undefined]). *)
Record Variant : Type := {
  code : string;
  notes : option string
}.

(** One element of the [sections] array. *)
Record ComparisonEntry : Type := {
  title : string;
  description : string;
  svelte : Variant;
  vue : Variant
}.

(** The double quote, U+0022. *)
Definition dq : string := String (ascii_of_nat 34) EmptyString.

(** A template literal written line by line: the lines joined by U+000A. *)
Definition text (ls : list string) : string := Dedent.join_lines ls.

(** JavaScript truthiness of a value that is a string or [undefined]:
    the test of [{#if section.svelte.notes}]. *)
Definition truthy (v : option string) : bool :=
  match v with
  | Some s => negb (String.eqb s EmptyString)
  | None => false
  end.

(** The array [sections] of the page, lines 10 to 339.  The escapes of
    the template literals (backslash-backtick, backslash-slash) are
    resolved. *)
Definition sections : list ComparisonEntry :=
[
  {| title := "Hello World (Counter)";
     description :=
       text
       [ EmptyString;
         "        Buttons that increment a counter and displays the count. Showcases basic reactive state and event handling.";
         "      " ];
     svelte :=
       {| code :=
            text
            [ EmptyString;
              "          <script>";
              "            const count = $state(0)";
              EmptyString;
              "            function increment() {";
              "              count += 1";
              "            }";
              "          </script>";
              EmptyString;
              "          <button onclick={increment}>";
              "            Increment with function {count}";
              "          </button>";
              "          <button onclick={() => count += 1}>";
              "            Increment with inline handler {count}";
              "          </button>";
              "        " ];
          notes :=
            Some (text
            [ EmptyString;
              "          - uses browser-native event names:  `onclick=`";
              "          - always uses the variable name directly (no `.value` needed)";
              "        " ]) |};
     vue :=
       {| code :=
            text
            [ EmptyString;
              "          <script setup>";
              "            import {ref} from " ++ dq ++ "vue" ++ dq;
              EmptyString;
              "            const count = ref(0)";
              EmptyString;
              "            function increment() {";
              "              count.value += 1  // NOTICE: .value needed in script";
              "            }";
              "          </script>";
              EmptyString;
              "          <template>";
              "            <button @click=" ++ dq ++ "increment" ++ dq ++ ">";
              "              Increment with function {{ count }}";
              "            </button>";
              "            <button @click=" ++ dq ++ "count += 1" ++ dq ++ "> <!-- NOTICE: no .value -->";
              "              Increment with inline handler {{ count }}";
              "            </button>";
              "          </template>";
              "        " ];
          notes :=
            Some (text
            [ EmptyString;
              "          - uses special syntax for event bindings: `@click=`";
              "          - use `.value` in script, don't use it in template. **big gotcha**";
              "        " ]) |} |};
  {| title := "Input Binding";
     description :=
       "Synchronizing state with an input's value. Not much to say here, just a matter of taste.";
     svelte :=
       {| code :=
            text
            [ EmptyString;
              "          <script>";
              "            let name = $state('Dmitry')";
              "            let checked = $state(true)";
              "          </script>";
              EmptyString;
              "          <!-- bind:value for input, textarea, select, etc -->";
              "          <input type=" ++ dq ++ "text" ++ dq ++ " bind:value={name} />";
              EmptyString;
              "          <!-- checkboxes use bind:checked -->";
              "          <input type=" ++ dq ++ "checkbox" ++ dq ++ " bind:checked={checked} />";
              "        " ];
          notes :=
            Some ("- `bind:` syntax") |};
     vue :=
       {| code :=
            text
            [ EmptyString;
              "          <script setup>";
              "            import {ref} from " ++ dq ++ "vue" ++ dq;
              EmptyString;
              "            let name = ref('Dmitry')";
              "            let checked = ref(false)";
              "          </script>";
              EmptyString;
              "          <template>";
              "            <input type=" ++ dq ++ "text" ++ dq ++ " v-model=" ++ dq ++ "name" ++ dq ++ ">";
              "            <input type=" ++ dq ++ "checkbox" ++ dq ++ " v-model=" ++ dq ++ "checked" ++ dq ++ ">";
              EmptyString;
              "            <!-- long form: -->";
              "            <input type=" ++ dq ++ "text" ++ dq ++ " :value=" ++ dq ++ "name" ++ dq ++ " @input=" ++ dq ++ "event => name = event.target.value" ++ dq ++ ">";
              "            <input type=" ++ dq ++ "checkbox" ++ dq ++ " :value=" ++ dq ++ "checked" ++ dq ++ " @input=" ++ dq ++ "event => checked = event.target.value" ++ dq ++ ">";
              "          </template>";
              "        " ];
          notes :=
            Some (text
            [ EmptyString;
              "          - v-model attribute (personally not a fan)";
              "        " ]) |} |};
  {| title := "Control Flow";
     description :=
       "Ifs and loops";
     svelte :=
       {| code :=
            text
            [ EmptyString;
              "          <!-- if statement -->";
              "          {#if condition}";
              "            <p>it's true</p>";
              "          {:else if otherCondition}";
              "            <p>it's something else</p>";
              "          {:else}";
              "            <p>it's nothing</p>";
              "          {/if}";
              EmptyString;
              "          <!-- each loop -->";
              "          {#each items as item}";
              "            <p>{item}</p>";
              "          {:else}";
              "            <p>there are no items</p>";
              "          {/each}";
              "        " ];
          notes :=
            Some (text
            [ EmptyString;
              "          - special syntax for control flow";
              "          - small learning curve but at least it's consistent: # to start, : in the middle, / to end";
              "          - control flow can't get lost visually - it's always clear";
              "        " ]) |};
     vue :=
       {| code :=
            text
            [ EmptyString;
              "          <!-- if statement -->";
              "          <p v-if=" ++ dq ++ "condition" ++ dq ++ ">it's true</p>";
              "          <p v-else-if=" ++ dq ++ "otherCondition" ++ dq ++ ">it's something else</p>";
              "          <p v-else=" ++ dq ++ "otherCondition" ++ dq ++ ">it's nothing</p>";
              EmptyString;
              "          <!-- for loop -->";
              "          <p v-for=" ++ dq ++ "item in items" ++ dq ++ ">{{ item }}</p>";
              EmptyString;
              "          <!-- empty check. there is no " ++ dq ++ "else" ++ dq ++ " so have to wrap in v-if -->";
              "          <div v-if=" ++ dq ++ "items.length > 0" ++ dq ++ ">";
              "            <p v-for=" ++ dq ++ "item in items" ++ dq ++ ">{{ item }}</p>";
              "          </div>";
              "          <div v-else>";
              "            <p>there are no items</p>";
              "          </div>";
              "        " ];
          notes :=
            Some (text
            [ EmptyString;
              "          - special attributes v-if, v-for, etc";
              "          - control flow can get lost in a sea of other attributes on the same element";
              "        " ]) |} |};
  {| title := "Deep State Reactivity / Object Mutability";
     description :=
       "Reactivity with objects (or arrays)";
     svelte :=
       {| code :=
            text
            [ EmptyString;
              "          <script>";
              "            let item = $state({id: 1, name: " ++ dq ++ "foo" ++ dq ++ "})";
              "            item.name = " ++ dq ++ "bar" ++ dq ++ ";";
              "          </script>";
              EmptyString;
              "          <p>{item.id}: {item.name}</p>";
              "        " ];
          notes :=
            Some ("- $state is used for both primives and objects") |};
     vue :=
       {| code :=
            text
            [ EmptyString;
              "          <script setup>";
              "            import {reactive} from " ++ dq ++ "vue" ++ dq;
              EmptyString;
              "            let item = reactive({id: 1, name: " ++ dq ++ "foo" ++ dq ++ "})";
              "            item.value.name = " ++ dq ++ "bar" ++ dq ++ ";";
              "          </script>";
              EmptyString;
              "          <template>";
              "            <p>{{ item.id }}: {{ item.name }}</p>";
              "          </template>";
              "        " ];
          notes :=
            Some (text
            [ EmptyString;
              "        - for objects, use `reactive()`";
              "        - for primitive values (strings, numbers), use `ref()`";
              "        - have to remember to use ref or reactive - **big gotcha**";
              "        " ]) |} |};
  {| title := "Derived state";
     description :=
       "Deriving state from other state with calculations. Not too different between Svelte and Vue, so matter of taste.";
     svelte :=
       {| code :=
            text
            [ EmptyString;
              "          <script>";
              "            let numbers = $state([1, 2, 3, 4])";
              "            let total = $derived(numbers.reduce((acc, n) => acc + n, 0))";
              "            // total is 5";
              "            numbers.push(5);";
              "            // total is now 10";
              "          </script>";
              EmptyString;
              "          <p>The total is: {total}</p>";
              "        " ];
          notes :=
            Some (text
            [ EmptyString;
              "          - don't need callback function in $derived (you can if needed)";
              "        " ]) |};
     vue :=
       {| code :=
            text
            [ EmptyString;
              "          <script setup>";
              "            import {reactive, computed} from " ++ dq ++ "vue" ++ dq;
              "            ";
              "            const numbers = reactive([1, 2, 3, 4])";
              "            const total = computed(() => numbers.reduce((acc, n) => acc + n, 0))";
              "            // total is 5";
              "            numbers.value.push(5);";
              "            // total is now 10";
              "          </script>";
              EmptyString;
              "          <template>";
              "            <p>The total is: {{ total }}</p>";
              "          </template>";
              "        " ];
          notes :=
            Some (text
            [ EmptyString;
              "          - computed() takes a callback function";
              "        " ]) |} |};
  {| title := "Components Props";
     description :=
       "Passing values to custom components.";
     svelte :=
       {| code :=
            text
            [ EmptyString;
              "          <!-- Person.svelte -->";
              "          <script>";
              "            let {name} = $props()";
              "          </script>";
              EmptyString;
              "          <p>My name is {name}</p>";
              EmptyString;
              "          <!-- usage -->";
              "          <script>";
              "            import Person from " ++ dq ++ "./Person.svelte" ++ dq;
              EmptyString;
              "            let name = " ++ dq ++ "Dmitry" ++ dq;
              "          </script>";
              EmptyString;
              "          <Person name={name} />";
              "          <!-- or shorthand: -->";
              "          <Person {name} />";
              "        " ];
          notes :=
            Some (text
            [ EmptyString;
              "          - declare props with `$props()`";
              "          - pass in with `name={name}` or `{name}` shorthand if prop name and variable name are the same";
              "        " ]) |};
     vue :=
       {| code :=
            text
            [ EmptyString;
              "          <!-- Person.vue -->";
              "          <script setup>";
              "            const {name} = defineProps(['name'])";
              "          </script>";
              EmptyString;
              "          <template>";
              "            <p>My name is {{ name }}</p>";
              "          </template>";
              EmptyString;
              "          <!-- usage: -->";
              "          <script setup>";
              "            import Person from " ++ dq ++ "./Person.vue" ++ dq;
              EmptyString;
              "            let name = " ++ dq ++ "Dmitry" ++ dq;
              "          </script>";
              EmptyString;
              "          <template>";
              "            <Person :name=" ++ dq ++ "name" ++ dq ++ " />";
              "            <!-- there is no shorthand -->";
              "          </template>";
              "        " ];
          notes :=
            Some (text
            [ EmptyString;
              "          - declare props with `defineProps()`";
              "        " ]) |} |};
  {| title := "Async (Promises)";
     description :=
       "Waiting for a promise to resolve, displaying loading state, and handling errors.";
     svelte :=
       {| code :=
            text
            [ EmptyString;
              "          <script>";
              "            let promise = fetch(" ++ dq ++ "..." ++ dq ++ ")";
              "          </script>";
              EmptyString;
              "          {#await promise}";
              "            <p>Loading...</p>";
              "          {:then data}";
              "            <p>{data}</p>";
              "          {:catch error}";
              "            <p>{error}</p>";
              "          {/await}";
              "        " ];
          notes :=
            Some (text
            [ EmptyString;
              "          - built-in await block which captures data, error, and loading states";
              "        " ]) |};
     vue :=
       {| code :=
            text
            [ EmptyString;
              "          <script setup>";
              "            import {ref} from " ++ dq ++ "vue" ++ dq;
              EmptyString;
              "            let loading = ref(true)";
              "            let data = ref(null)";
              "            let error = ref(null)";
              "            let promise = fetch(" ++ dq ++ "..." ++ dq ++ ")";
              "              .then(d => data.value = d)";
              "              .catch(e => error.value = e)";
              "              .finally(() => loading.value = false)";
              "          </script>";
              EmptyString;
              "          <p v-if=" ++ dq ++ "loading" ++ dq ++ ">Loading...</p>";
              "          <p v-if=" ++ dq ++ "data" ++ dq ++ ">{{ data }}</p>";
              "          <p v-if=" ++ dq ++ "error" ++ dq ++ ">{{ error }}</p>";
              "        " ];
          notes :=
            Some (text
            [ EmptyString;
              "          - Vue has no built-in promise support in templates";
              "          - Have to build something custom with refs";
              "        " ]) |} |}
].

End Content.

(** ** View composer *)

(** The template of the page, lines 346 to 374.  The [<svelte:head>]
    block and the [<style>] block are styling and are left out, as is the
    whitespace between elements. *)

Module Composer.
Import Content.

(** The markup the template produces: text, elements with their class
    attribute, and the markup a component returned. *)
#[warnings="-register-all"]
Inductive html : Type :=
| Text (s : string)
| Raw (markup : string)
| Elem (tag cls : string) (kids : list html).

(** The state the render pass runs in: the binding [sections]. *)
Definition Store : Type := list ComparisonEntry.

(** Computations of the render pass.  A computation either returns or
    raises ([None]); the store is handed on in both cases, as a JavaScript
    exception does not undo earlier effects. *)
Definition M (A : Type) : Type := Store -> option A * Store.

Definition ret {A : Type} (a : A) : M A := fun st => (Some a, st).

Definition bind {A B : Type} (m : M A) (f : A -> M B) : M B :=
  fun st =>
    match m st with
    | (Some a, st') => f a st'
    | (None, st') => (None, st')
    end.

(** Reading the binding [sections]. *)
Definition read_sections : M Store := fun st => (Some st, st).

(** Instantiating a component on a string prop.  A string is an immutable
    value, so the component has no access to the store; it returns markup
    or raises. *)
Definition call (component : string -> option string) (prop : string) : M string :=
  fun st => (component prop, st).

Declare Scope render_scope.
Delimit Scope render_scope with render.
Notation "x <- m ;; k" := (bind m (fun x => k))
  (at level 61, m at next level, right associativity) : render_scope.
Open Scope render_scope.

(** [{#each l as x} ... {/each}] *)
Fixpoint each {A B : Type} (body : A -> M B) (l : list A) : M (list B) :=
  match l with
  | [] => ret []
  | x :: rest =>
      y <- body x ;;
      ys <- each body rest ;;
      ret (y :: ys)
  end.

(** The three components the page imports from [svelte-exmarkdown] and
    [svelte-highlight], each taken by what it does with its string prop. *)
Record Components : Type := {
  Markdown : string -> option string;
  HighlightSvelte : string -> option string;
  HighlightAuto : string -> option string
}.

Definition no_class : string := EmptyString.

Section Template.

Variable dedent : string -> string.
Variable C : Components.

(** Lines 362 to 364 and 367 to 369:
    [{#if v.notes}<Markdown md={dedent(v.notes)} />{/if}]. *)
Definition render_notes (v : option string) : M (list html) :=
  if truthy v then
    match v with
    | Some s => r <- call (Markdown C) (dedent s) ;; ret [Raw r]
    | None => ret []
    end
  else ret [].

(** Lines 349 to 372: the body of the each block. *)
Definition render_section (section : ComparisonEntry) : M html :=
  md <- call (Markdown C) (dedent (description section)) ;;
  a <- call (HighlightSvelte C) (dedent (code (svelte section))) ;;
  b <- call (HighlightAuto C) (dedent (code (vue section))) ;;
  na <- render_notes (notes (svelte section)) ;;
  nb <- render_notes (notes (vue section)) ;;
  ret (Elem "section" no_class
         [ Elem "h2" "section-header" [Text (title section)];
           Raw md;
           Elem "div" "side-by-side"
             [ Elem "div" no_class [Elem "b" no_class [Text "Svelte"]; Raw a];
               Elem "div" no_class [Elem "b" no_class [Text "Vue"]; Raw b];
               Elem "div" no_class na;
               Elem "div" no_class nb ] ]).

(** Lines 346 to 374: [<main>]. *)
Definition render_main : M html :=
  ss <- read_sections ;;
  secs <- each render_section ss ;;
  ret (Elem "main" no_class (Elem "h1" no_class [Text "Svelte vs Vue"] :: secs)).

End Template.

(** *** Reading the output *)

Definition kids_of (h : html) : list html :=
  match h with
  | Elem _ _ kids => kids
  | _ => []
  end.

(** The [<section>] elements of the page, after the [<h1>]. *)
Definition page_entries (page : html) : list html := tl (kids_of page).

(** The text of the heading of a [<section>]. *)
Definition entry_title (sec : html) : option string :=
  match kids_of sec with
  | Elem _ _ [Text t] :: _ => Some t
  | _ => None
  end.

(** The children of the grid [div.side-by-side] of a [<section>]. *)
Definition entry_cells (sec : html) : list html :=
  match kids_of sec with
  | [_; _; grid] => kids_of grid
  | _ => []
  end.

(** A code cell: a label and the markup of a highlighter. *)
Definition code_cell (label markup : string) : html :=
  Elem "div" no_class [Elem "b" no_class [Text label]; Raw markup].

(** A notes slot: empty, or the markup of the markdown renderer. *)
Definition notes_slot (content : option string) : html :=
  Elem "div" no_class
    match content with
    | Some markup => [Raw markup]
    | None => []
    end.

(** A component that returns on every prop. *)
Definition returns (component : string -> option string) : Prop :=
  forall s, component s <> None.

(** The calls the template makes for one entry all return. *)
Definition calls_return (dedent : string -> string) (C : Components)
    (e : ComparisonEntry) : Prop :=
  Markdown C (dedent (description e)) <> None /\
  HighlightSvelte C (dedent (code (svelte e))) <> None /\
  HighlightAuto C (dedent (code (vue e))) <> None /\
  (forall s, notes (svelte e) = Some s -> truthy (Some s) = true ->
             Markdown C (dedent s) <> None) /\
  (forall s, notes (vue e) = Some s -> truthy (Some s) = true ->
             Markdown C (dedent s) <> None).

(** A computation that hands the store on as it received it. *)
Definition frame {A : Type} (m : M A) : Prop :=
  forall st, snd (m st) = st.

(** What a notes slot holds for a [notes] field: nothing when the field
    is falsy, the markdown of its normalised text otherwise. *)
Definition notes_view (dedent : string -> string) (C : Components)
    (v : option string) (slot : option string) : Prop :=
  if truthy v
  then exists s r, v = Some s /\ Markdown C (dedent s) = Some r /\ slot = Some r
  else slot = None.

(** The [<section>] element of an entry, given what the components
    returned. *)
Definition section_view (dedent : string -> string) (C : Components)
    (e : ComparisonEntry) (sec : html) : Prop :=
  exists md a b na nb,
    Markdown C (dedent (description e)) = Some md /\
    HighlightSvelte C (dedent (code (svelte e))) = Some a /\
    HighlightAuto C (dedent (code (vue e))) = Some b /\
    notes_view dedent C (notes (svelte e)) na /\
    notes_view dedent C (notes (vue e)) nb /\
    sec = Elem "section" no_class
            [ Elem "h2" "section-header" [Text (title e)];
              Raw md;
              Elem "div" "side-by-side"
                [ code_cell "Svelte" a; code_cell "Vue" b;
                  notes_slot na; notes_slot nb ] ].

End Composer.

Import Dedent Content Composer.

(** ** Statements about texts and sample inputs *)

(** Every blank line strictly inside a text is a line of its
    normalisation, character for character. *)
Definition blank_lines_verbatim (x : string) : Prop :=
  forall l, In l (interior (split_lines x)) -> blank l = true ->
            In l (split_lines (dedent x)).

(** The reference input of the specification. *)
Definition reference_text : string :=
  text [EmptyString; "    foo"; "    bar"].

(** A line indented by two followed by a line indented by three. *)
Definition stepped : string :=
  text [EmptyString; "  a"; "   b"].

(** Two blank lines before the content. *)
Definition double_lead : string :=
  text [EmptyString; EmptyString; "foo"].

(** Four empty lines, that is three line breaks. *)
Definition three_breaks : string :=
  text [EmptyString; EmptyString; EmptyString; EmptyString].

(** A tab-indented line next to a space-indented one. *)
Definition mixed_indent : string :=
  text [EmptyString; String "009" "foo"; "    bar"].

(** The code of the Vue variant of the fifth entry, whose third line
    (line 219 of the page) is twelve spaces. *)
Definition derived_vue_code : string :=
  code (vue (nth 4 sections
    {| title := EmptyString; description := EmptyString;
       svelte := {| code := EmptyString; notes := None |};
       vue := {| code := EmptyString; notes := None |} |})).

(** The entry of the specification's end-to-end example: variant A has
    no notes. *)
Definition example_entry : ComparisonEntry :=
  {| title := "X";
     description := text [EmptyString; "  Hi"; EmptyString];
     svelte := {| code := text [EmptyString; "  a=1"; EmptyString];
                  notes := None |};
     vue := {| code := text [EmptyString; "  b=2"; EmptyString];
               notes := Some (text [EmptyString; "  **note**"; EmptyString]) |} |}.

(** An entry whose texts need no normalisation. *)
Definition plain_entry : ComparisonEntry :=
  {| title := "Y";
     description := "Plain";
     svelte := {| code := "let a"; notes := Some "- a" |};
     vue := {| code := "let b"; notes := Some "- b" |} |}.

(** Components that return their prop unchanged. *)
Definition echo : Components :=
  {| Markdown := Some; HighlightSvelte := Some; HighlightAuto := Some |}.

(** As [echo], but the auto-detecting highlighter raises on [b=2]. *)
Definition picky : Components :=
  {| Markdown := Some;
     HighlightSvelte := Some;
     HighlightAuto := fun s => if String.eqb s "b=2" then None else Some s |}.


(** The store of the two sample entries. *)
Definition sample_store : Store := [plain_entry; example_entry].

(** The page of [sample_store] under [echo]: every component shows its
    normalised prop, and the Svelte notes slot of the second entry is
    empty. *)
Definition sample_page : html :=
  Elem "main" no_class
    [ Elem "h1" no_class [Text "Svelte vs Vue"];
      Elem "section" no_class
        [ Elem "h2" "section-header" [Text "Y"];
          Raw "Plain";
          Elem "div" "side-by-side"
            [ code_cell "Svelte" "let a"; code_cell "Vue" "let b";
              notes_slot (Some "- a"); notes_slot (Some "- b") ] ];
      Elem "section" no_class
        [ Elem "h2" "section-header" [Text "X"];
          Raw "Hi";
          Elem "div" "side-by-side"
            [ code_cell "Svelte" "a=1"; code_cell "Vue" "b=2";
              notes_slot None; notes_slot (Some "**note**") ] ] ].

(** ** Further readings of the page *)

(** The markup of the description of a [<section>], its second child. *)
Definition entry_description (sec : html) : option string :=
  match kids_of sec with
  | [_; Raw md; _] => Some md
  | _ => None
  end.

(** The [<main>] element around the sections, with its heading. *)
Definition page_of (secs : list html) : html :=
  Elem "main" no_class (Elem "h1" no_class [Text "Svelte vs Vue"] :: secs).

(** A [notes] field with the falsy values turned into a missing field. *)
Definition present (v : option string) : option string :=
  if truthy v then v else None.

(** An entry whose empty notes are taken out. *)
Definition without_empty_notes (e : ComparisonEntry) : ComparisonEntry :=
  {| title := title e;
     description := description e;
     svelte := {| code := code (svelte e);
                  notes := present (notes (svelte e)) |};
     vue := {| code := code (vue e);
               notes := present (notes (vue e)) |} |}.

(** Two normalisers with two sets of components give the same answers on
    the calls the template makes for an entry: the description, the two
    codes and the truthy notes. *)
Definition agree (d d' : string -> string) (C C' : Components)
    (e : ComparisonEntry) : Prop :=
  Markdown C (d (description e)) = Markdown C' (d' (description e)) /\
  HighlightSvelte C (d (code (svelte e))) =
    HighlightSvelte C' (d' (code (svelte e))) /\
  HighlightAuto C (d (code (vue e))) = HighlightAuto C' (d' (code (vue e))) /\
  (forall s, notes (svelte e) = Some s -> truthy (Some s) = true ->
             Markdown C (d s) = Markdown C' (d' s)) /\
  (forall s, notes (vue e) = Some s -> truthy (Some s) = true ->
             Markdown C (d s) = Markdown C' (d' s)).

(** An entry with an empty description and empty notes on the Vue side. *)
Definition bare_entry : ComparisonEntry :=
  {| title := "Z";
     description := EmptyString;
     svelte := {| code := "let a"; notes := Some "- a" |};
     vue := {| code := "let b"; notes := Some EmptyString |} |}.

(** * Properties of the normaliser *)

Section SplitJoin.

Lemma split_lines_cons (s : string) :
  exists l ls, split_lines s = l :: ls.
Proof.
  induction s as [|c r [l [ls IH]]]; simpl.
  - now exists EmptyString, [].
  - destruct (c =? nl)%char; [now eauto|].
    rewrite IH. now eauto.
Qed.

Lemma split_lines_not_nil (s : string) : split_lines s <> [].
Proof.
  destruct (split_lines_cons s) as [l [ls E]]. rewrite E. discriminate.
Qed.

Lemma split_lines_no_nl (s : string) :
  Forall (fun l => no_nl l = true) (split_lines s).
Proof.
  induction s as [|c r IH]; simpl.
  - now repeat constructor.
  - destruct (c =? nl)%char eqn:E.
    + now constructor.
    + destruct (split_lines r) as [|l ls].
      * constructor; [simpl; now rewrite E | constructor].
      * inversion IH; subst. constructor; [simpl; rewrite E; simpl|]; assumption.
Qed.

Lemma join_lines_cons (l l' : string) (ls : list string) :
  join_lines (l :: l' :: ls) = l ++ String nl (join_lines (l' :: ls)).
Proof. reflexivity. Qed.

Lemma join_split (s : string) : join_lines (split_lines s) = s.
Proof.
  induction s as [|c r IH]; [reflexivity|].
  simpl. destruct (c =? nl)%char eqn:E.
  - apply Ascii.eqb_eq in E. subst c.
    destruct (split_lines_cons r) as [l [ls Er]].
    rewrite Er in *. rewrite join_lines_cons. simpl. now rewrite IH.
  - destruct (split_lines_cons r) as [l [ls Er]]. rewrite Er in *.
    destruct ls as [|l' ls].
    + cbn in *. now subst.
    + rewrite join_lines_cons in *. cbn [append]. now rewrite IH.
Qed.

Lemma split_line (l : string) : no_nl l = true -> split_lines l = [l].
Proof.
  induction l as [|c r IH]; [reflexivity|].
  simpl. intros H. apply andb_true_iff in H as [Hc Hr].
  apply negb_true_iff in Hc. rewrite Hc, (IH Hr). reflexivity.
Qed.

Lemma split_append (l r : string) :
  no_nl l = true -> split_lines (l ++ String nl r) = l :: split_lines r.
Proof.
  induction l as [|c l IH]; intros H.
  - reflexivity.
  - simpl in H. apply andb_true_iff in H as [Hc Hl].
    apply negb_true_iff in Hc. simpl. rewrite Hc, (IH Hl). reflexivity.
Qed.

Lemma split_join (ls : list string) :
  ls <> [] -> Forall (fun l => no_nl l = true) ls ->
  split_lines (join_lines ls) = ls.
Proof.
  induction ls as [|l ls IH]; [congruence|].
  intros _ H. inversion H as [|? ? Hl Hls]; subst.
  destruct ls as [|l' ls].
  - now apply split_line.
  - rewrite join_lines_cons, split_append by assumption.
    rewrite IH; [reflexivity | discriminate | assumption].
Qed.

End SplitJoin.

Section Cut.

Lemma append_length (a b : string) :
  String.length (a ++ b) = String.length a + String.length b.
Proof. induction a as [|c a IH]; simpl; [reflexivity | now rewrite IH]. Qed.

Lemma join_length (ls : list string) :
  String.length (join_lines ls) = size ls - 1.
Proof.
  induction ls as [|l r IH]; [reflexivity|].
  destruct r as [|l' r].
  - change (join_lines [l]) with l. simpl. lia.
  - rewrite join_lines_cons, append_length.
    change (String.length (String nl (join_lines (l' :: r))))
      with (S (String.length (join_lines (l' :: r)))).
    rewrite IH. simpl. lia.
Qed.

Lemma slice_length (n : nat) (l : string) :
  String.length (slice n l) = String.length l - n.
Proof.
  revert l. induction n as [|n IH]; intros [|c r]; simpl; try lia.
  apply IH.
Qed.

Lemma slice_blank (n : nat) (l : string) :
  blank l = true -> blank (slice n l) = true.
Proof.
  revert l. induction n as [|n IH]; intros [|c r]; simpl; try tauto.
  intros H. apply andb_true_iff in H as [_ H]. now apply IH.
Qed.

Lemma cut_length (m : nat) (l : string) :
  String.length (cut m l) <= String.length l.
Proof.
  destruct l as [|c r]; [simpl; lia|].
  unfold cut. destruct (is_indent_char c); [|lia].
  rewrite slice_length. lia.
Qed.

Lemma cut_blank (m : nat) (l : string) :
  blank l = true -> blank (cut m l) = true.
Proof.
  intros H. destruct l as [|c r]; [reflexivity|].
  unfold cut. destruct (is_indent_char c); [now apply slice_blank | exact H].
Qed.

Lemma cut_indented (m : nat) (l : string) :
  starts_indented l = true -> cut m l = slice m l.
Proof.
  destruct l as [|c r]; [discriminate|].
  simpl. now intros ->.
Qed.

Lemma cut_not_indented (m : nat) (l : string) :
  starts_indented l = false -> cut m l = l.
Proof.
  destruct l as [|c r]; [reflexivity|].
  simpl. now intros ->.
Qed.

Lemma cut_zero (l : string) : cut 0 l = l.
Proof. destruct l as [|c r]; [reflexivity|]. simpl. now destruct (is_indent_char c). Qed.

Lemma size_cut (m : nat) (ls : list string) :
  size (map (cut m) ls) <= size ls.
Proof.
  induction ls as [|l r IH]; simpl; [lia|].
  pose proof (cut_length m l). lia.
Qed.

(** A cut that changes a line makes the text shorter. *)
Lemma size_cut_changed (m : nat) (ls : list string) :
  map (cut m) ls <> ls -> size (map (cut m) ls) < size ls.
Proof.
  induction ls as [|l r IH]; [intros H; now contradiction H|].
  intros H. cbn [map size].
  pose proof (cut_length m l) as Hl. pose proof (size_cut m r) as Hr.
  destruct (string_dec (cut m l) l) as [E|E].
  - assert (Hr' : map (cut m) r <> r).
    { intros Er. apply H. cbn [map]. now rewrite E, Er. }
    specialize (IH Hr'). lia.
  - assert (String.length (cut m l) <> String.length l); [|lia].
    intros El. apply E.
    destruct l as [|c l']; [reflexivity|].
    unfold cut in *. destruct (is_indent_char c); [|reflexivity].
    rewrite slice_length in El. destruct m; [reflexivity|].
    simpl in El. lia.
Qed.


End Cut.

Section Mindent.

Lemma matched_positive (l : string) (i : nat) :
  matched l = Some i -> 1 <= i /\ i = leading l /\ blank l = false.
Proof.
  unfold matched.
  destruct (leading l =? 0)%nat eqn:E; simpl; [discriminate|].
  destruct (blank l); simpl; [discriminate|].
  intros [= <-]. apply Nat.eqb_neq in E. repeat split. lia.
Qed.

Lemma matched_flush (l : string) : leading l = 0 -> matched l = None.
Proof. unfold matched. now intros ->. Qed.


Lemma blank_leading (l : string) :
  blank l = false -> starts_indented l = true -> leading l <> 0.
Proof.
  destruct l as [|c r]; [discriminate|].
  simpl. intros _ H.
  assert (Hs : is_space c = true).
  { unfold is_indent_char in H. apply orb_true_iff in H as [H|H];
      apply Ascii.eqb_eq in H; now subst c. }
  rewrite Hs. discriminate.
Qed.

Lemma matched_indented (l : string) :
  blank l = false -> starts_indented l = true -> matched l = Some (leading l).
Proof.
  intros Hb Hs. unfold matched. rewrite Hb.
  pose proof (blank_leading l Hb Hs) as Hn.
  apply Nat.eqb_neq in Hn. now rewrite Hn.
Qed.

(** The loop keeps a minimum that is set at least one. *)
Lemma fold_note_positive (ls : list string) (acc : option nat) :
  (forall a, acc = Some a -> 1 <= a) ->
  forall m, fold_left note_indent ls acc = Some m -> 1 <= m.
Proof.
  revert acc. induction ls as [|l ls IH]; intros acc Hacc m; simpl.
  - apply Hacc.
  - apply IH. intros a. unfold note_indent.
    destruct (matched l) as [i|] eqn:Em; [|apply Hacc].
    apply matched_positive in Em as [Hi _].
    destruct acc as [[|k]|]; intros [= <-]; try assumption.
    destruct i as [|i']; lia.
Qed.

(** The loop ends without a minimum exactly when no line sets one. *)
Lemma fold_note_none (ls : list string) (acc : option nat) :
  fold_left note_indent ls acc = None <->
  acc = None /\ Forall (fun l => matched l = None) ls.
Proof.
  revert acc. induction ls as [|l ls IH]; intros acc; simpl.
  - split; [now split | now intros [H _]].
  - rewrite IH. unfold note_indent. split.
    + intros [H1 H2]. destruct (matched l) as [i|] eqn:Em.
      * destruct acc as [[|k]|]; discriminate.
      * split; [exact H1 | now constructor].
    + intros [-> H]. inversion H as [|? ? Hl Hls]; subst.
      rewrite Hl. now split.
Qed.

Lemma mindent_positive (ls : list string) (m : nat) :
  mindent ls = Some m -> 1 <= m.
Proof. apply fold_note_positive. discriminate. Qed.

Lemma mindent_none (ls : list string) :
  mindent ls = None <-> Forall (fun l => matched l = None) ls.
Proof.
  unfold mindent. rewrite fold_note_none. tauto.
Qed.

End Mindent.

Section TrimFacts.



Lemma trim_start_split (s : string) :
  exists pre, s = pre ++ trim_start s /\ blank pre = true.
Proof.
  induction s as [|c r [pre [E B]]]; [now exists EmptyString|].
  simpl. destruct (is_space c) eqn:Ec.
  - exists (String c pre). simpl. rewrite Ec, B. split; [now rewrite <- E | reflexivity].
  - now exists EmptyString.
Qed.

Lemma trim_end_split (s : string) :
  exists post, s = trim_end s ++ post /\ blank post = true.
Proof.
  induction s as [|c r [post [E B]]]; [now exists EmptyString|].
  simpl. destruct (trim_end r) as [|c' r'] eqn:Er.
  - destruct (is_space c) eqn:Ec.
    + exists (String c post). simpl in *. rewrite Ec, B. subst r. split; reflexivity.
    + exists post. simpl in *. now subst r.
  - exists post. simpl. split; [|exact B]. now rewrite E at 1.
Qed.

Lemma trim_start_clean (s : string) : begins_blank (trim_start s) = false.
Proof.
  induction s as [|c r IH]; [reflexivity|].
  simpl. destruct (is_space c) eqn:Ec; [exact IH | simpl; exact Ec].
Qed.

Lemma trim_end_clean (s : string) : ends_blank (trim_end s) = false.
Proof.
  induction s as [|c r IH]; [reflexivity|].
  simpl. destruct (trim_end r) as [|c' r'] eqn:Er.
  - destruct (is_space c) eqn:Ec; [reflexivity | simpl; exact Ec].
  - exact IH.
Qed.

Lemma trim_end_begins (s : string) :
  begins_blank s = false -> begins_blank (trim_end s) = false.
Proof.
  destruct s as [|c r]; [reflexivity|].
  simpl. intros Hc. destruct (trim_end r); [|exact Hc].
  now rewrite Hc.
Qed.

Lemma trim_start_fixed (s : string) :
  begins_blank s = false -> trim_start s = s.
Proof. destruct s as [|c r]; [reflexivity|]. simpl. now intros ->. Qed.

Lemma trim_end_fixed (s : string) :
  ends_blank s = false -> trim_end s = s.
Proof.
  induction s as [|c r IH]; [reflexivity|].
  destruct r as [|c' r'].
  - simpl. now intros ->.
  - intros H. change (ends_blank (String c (String c' r')))
      with (ends_blank (String c' r')) in H.
    change (trim_end (String c (String c' r')))
      with (match trim_end (String c' r') with
            | EmptyString =>
                if is_space c then EmptyString else String c EmptyString
            | String a b => String c (String a b)
            end).
    rewrite (IH H). reflexivity.
Qed.

(** The trimmed text has no whitespace at either end. *)
Lemma trim_clean (s : string) :
  begins_blank (trim s) = false /\ ends_blank (trim s) = false.
Proof.
  unfold trim. split.
  - apply trim_end_begins, trim_start_clean.
  - apply trim_end_clean.
Qed.

Lemma trim_idempotent (s : string) : trim (trim s) = trim s.
Proof.
  destruct (trim_clean s) as [H1 H2].
  unfold trim at 1. now rewrite trim_start_fixed, trim_end_fixed.
Qed.

(** A text is its trimmed form between two runs of whitespace. *)
Lemma trim_split (s : string) :
  exists pre post,
    s = pre ++ trim s ++ post /\ blank pre = true /\ blank post = true.
Proof.
  destruct (trim_start_split s) as [pre [E1 B1]].
  destruct (trim_end_split (trim_start s)) as [post [E2 B2]].
  exists pre, post. unfold trim. repeat split; try assumption.
  now rewrite <- E2.
Qed.

Lemma blank_length_split (a b c : string) :
  String.length b <= String.length (a ++ b ++ c).
Proof. rewrite !append_length. lia. Qed.

Lemma trim_length (s : string) : String.length (trim s) <= String.length s.
Proof.
  destruct (trim_split s) as [pre [post [E _]]].
  rewrite E at 2. apply blank_length_split.
Qed.



End TrimFacts.

Section DedentFacts.

(** The normaliser by lines: cut, join, trim. *)
Lemma dedent_by_lines (x : string) :
  dedent x = trim (join_lines (cut_lines (split_lines x))).
Proof.
  unfold dedent, cut_lines.
  destruct (mindent (split_lines x)); [reflexivity|].
  now rewrite join_split.
Qed.


Lemma dedent_trimmed (x : string) : trim (dedent x) = dedent x.
Proof. rewrite dedent_by_lines. apply trim_idempotent. Qed.

End DedentFacts.

Section Idempotence.

Lemma map_fixed {A : Type} (f : A -> A) (ls : list A) :
  map f ls = ls -> forall l, In l ls -> f l = l.
Proof.
  induction ls as [|a ls IH]; intros H l; [contradiction|].
  cbn [map] in H. injection H as Ha Hls.
  intros [<-|Hl]; [exact Ha | now apply IH].
Qed.

Lemma size_positive (ls : list string) : ls <> [] -> 1 <= size ls.
Proof. destruct ls; [congruence | simpl; lia]. Qed.

(** A pass that cuts some line gives a shorter text. *)
Lemma dedent_shorter (y : string) :
  cut_lines (split_lines y) <> split_lines y ->
  String.length (dedent y) < String.length y.
Proof.
  intros N. rewrite dedent_by_lines.
  pose proof (trim_length (join_lines (cut_lines (split_lines y)))) as H1.
  rewrite join_length in H1.
  rewrite <- (join_split y) at 2. rewrite join_length.
  unfold cut_lines in *.
  destruct (mindent (split_lines y)) as [m|]; [|congruence].
  pose proof (size_cut_changed m (split_lines y) N) as H2.
  assert (H3 : 1 <= size (map (cut m) (split_lines y))).
  { apply size_positive. destruct (split_lines_cons y) as [l [r E]].
    rewrite E. discriminate. }
  lia.
Qed.

(** The second pass changes nothing exactly when it cuts no line. *)
Lemma dedent_fixed_iff (y : string) :
  trim y = y ->
  (dedent y = y <-> cut_lines (split_lines y) = split_lines y).
Proof.
  intros Hy. split.
  - intros H.
    destruct (list_eq_dec string_dec (cut_lines (split_lines y)) (split_lines y))
      as [E|N]; [exact E|].
    apply dedent_shorter in N. rewrite H in N. lia.
  - intros E. now rewrite dedent_by_lines, E, join_split.
Qed.

Lemma indented_cut (m : nat) (l : string) :
  1 <= m -> starts_indented l = true -> cut m l <> l.
Proof.
  intros Hm Hs E. apply (f_equal String.length) in E.
  rewrite cut_indented, slice_length in E by exact Hs.
  destruct l as [|c r]; [discriminate|]. cbn [String.length] in E. lia.
Qed.

End Idempotence.

(** ** The normaliser: stated properties *)

(** C1, as amended.  Normalising a second time changes nothing exactly
    when the second pass finds no line to cut in the normalised text.
    That is so when no line of the normalised text begins with
    whitespace.  It is not so when some non-blank line of the normalised
    text begins with a space or a tab: the first pass removes the common
    indentation only and keeps the indentation of one line relative to
    another, and the second pass takes that for indentation to remove. *)
Theorem dedent_idempotent_iff (x : string) :
  (dedent (dedent x) = dedent x <->
   cut_lines (split_lines (dedent x)) = split_lines (dedent x)) /\
  (Forall (fun l => leading l = 0) (split_lines (dedent x)) ->
   dedent (dedent x) = dedent x) /\
  (Exists (fun l => indented l = true) (split_lines (dedent x)) ->
   dedent (dedent x) <> dedent x).
Proof.
  pose proof (dedent_fixed_iff (dedent x) (dedent_trimmed x)) as Hiff.
  split; [exact Hiff|]. split.
  - intros H. apply Hiff. unfold cut_lines.
    replace (mindent (split_lines (dedent x))) with (@None nat);
      [reflexivity|].
    symmetry. apply mindent_none.
    eapply Forall_impl; [|exact H].
    intros l. apply matched_flush.
  - intros H Hd. apply Hiff in Hd.
    apply Exists_exists in H as [l [Hin Hl]].
    unfold indented in Hl. apply andb_true_iff in Hl as [Hs Hb].
    apply negb_true_iff in Hb.
    unfold cut_lines in Hd.
    destruct (mindent (split_lines (dedent x))) as [m|] eqn:Em.
    + apply (indented_cut m l (mindent_positive _ _ Em) Hs).
      now apply (map_fixed _ _ Hd).
    + apply mindent_none in Em. rewrite Forall_forall in Em.
      specialize (Em l Hin). rewrite matched_indented in Em by assumption.
      discriminate.
Qed.

(** C1, the claim as stated fails: the first pass on a line indented by
    two and a line indented by three leaves the second line indented by
    one, and the second pass removes that. *)
Lemma dedent_not_idempotent :
  dedent (dedent stepped) <> dedent stepped.
Proof. vm_compute. discriminate. Qed.

(** C2, as amended.  The normalised text is the text after the cut
    without the whitespace at its two ends: all of it is removed, blank
    lines included and however many, and nothing between the first and
    the last non-whitespace character is.  So every interior line stays
    in its place.  Under the cut a blank line stays blank: an empty line
    is unchanged, a whitespace-only line that begins with a space or a tab
    loses the minimum indentation like every other such line and is
    trimmed to empty when it is not longer than that, and any other blank
    line is unchanged. *)
Theorem dedent_keeps_interior_lines (x : string) :
  (exists pre post,
     join_lines (cut_lines (split_lines x)) = pre ++ dedent x ++ post /\
     blank pre = true /\ blank post = true) /\
  begins_blank (dedent x) = false /\
  ends_blank (dedent x) = false /\
  (mindent (split_lines x) = None ->
   cut_lines (split_lines x) = split_lines x) /\
  (forall m, mindent (split_lines x) = Some m ->
     1 <= m /\
     cut_lines (split_lines x) = map (cut m) (split_lines x) /\
     forall l, blank l = true ->
       blank (cut m l) = true /\
       (l = EmptyString -> cut m l = EmptyString) /\
       (starts_indented l = true ->
        String.length (cut m l) = String.length l - m) /\
       (starts_indented l = false -> cut m l = l)).
Proof.
  rewrite dedent_by_lines.
  destruct (trim_clean (join_lines (cut_lines (split_lines x)))) as [Hb He].
  repeat split; try assumption.
  - apply trim_split.
  - unfold cut_lines. now intros ->.
  - now apply mindent_positive in H.
  - unfold cut_lines. now rewrite H.
  - now apply cut_blank.
  - now intros ->.
  - intros Hs. now rewrite cut_indented, slice_length.
  - apply cut_not_indented.
Qed.

(** C2, the claim as stated fails: the third line of the Vue code of the
    entry on derived state is twelve spaces, a blank line strictly inside
    the block; the common prefix is ten, so the normalised text holds a
    line of two spaces in its place and no line of twelve. *)
Lemma blank_line_not_verbatim : ~ blank_lines_verbatim derived_vue_code.
Proof.
  intros H.
  assert (Hin : In "            " (interior (split_lines derived_vue_code)))
    by (vm_compute; do 2 right; left; reflexivity).
  pose proof (H _ Hin eq_refl) as Hout. vm_compute in Hout.
  repeat (destruct Hout as [Hout|Hout]; [discriminate Hout|]).
  exact Hout.
Qed.

(** C3.  The reference input, the text of an empty line followed by the
    lines [    foo] and [    bar], normalises to the two lines [foo] and
    [bar]. *)
Theorem dedent_reference :
  split_lines reference_text = [EmptyString; "    foo"; "    bar"] /\
  reference_text = String nl ("    foo" ++ String nl "    bar") /\
  dedent reference_text = "foo" ++ String nl "bar".
Proof. repeat split. Qed.


(** Mixed tabs and spaces under-strip: each tab counts as one character. *)
Example dedent_mixed_indent :
  dedent mixed_indent = "foo" ++ String nl "   bar".
Proof. reflexivity. Qed.

(** The code blocks of the page are nested, so a second pass would
    flatten them: here the Vue code of the entry on derived state. *)
Example dedent_twice_on_page_code :
  dedent (dedent derived_vue_code) <> dedent derived_vue_code.
Proof.
  intros H. apply (f_equal String.length) in H. vm_compute in H.
  discriminate H.
Qed.

(** Blank lines at the ends go, however many there are. *)
Example dedent_double_lead : dedent double_lead = "foo".
Proof. reflexivity. Qed.

Example dedent_three_breaks : dedent three_breaks = EmptyString.
Proof. reflexivity. Qed.

(** * Properties of the composer *)

Section Monad.

Lemma frame_ret {A : Type} (a : A) : frame (ret a).
Proof. now intros st. Qed.

Lemma frame_call (f : string -> option string) (s : string) :
  frame (call f s).
Proof. now intros st. Qed.

Lemma frame_read : frame read_sections.
Proof. now intros st. Qed.

Lemma frame_bind {A B : Type} (m : M A) (f : A -> M B) :
  frame m -> (forall a, frame (f a)) -> frame (bind m f).
Proof.
  intros Hm Hf st. unfold bind.
  specialize (Hm st). destruct (m st) as [[a|] st']; simpl in Hm; subst.
  - apply Hf.
  - reflexivity.
Qed.

(** The value of a sequence whose first part keeps the store. *)
Lemma bind_value {A B : Type} (m : M A) (f : A -> M B) (st : Store) :
  frame m ->
  fst (bind m f st) =
  match fst (m st) with
  | Some a => fst (f a st)
  | None => None
  end.
Proof.
  intros Hm. unfold bind. specialize (Hm st).
  destruct (m st) as [[a|] st']; simpl in *; now subst.
Qed.

Lemma frame_each {A B : Type} (body : A -> M B) (l : list A) :
  (forall a, frame (body a)) -> frame (each body l).
Proof.
  intros Hb. induction l as [|x l IH]; simpl.
  - apply frame_ret.
  - apply frame_bind; [apply Hb|]. intros y.
    apply frame_bind; [apply IH|]. intros ys. apply frame_ret.
Qed.

(** The each block returns the results of its body, entry by entry. *)
Lemma each_value {A B : Type} (body : A -> M B) (l : list A) (st : Store) (ys : list B) :
  (forall a, frame (body a)) ->
  fst (each body l st) = Some ys ->
  Forall2 (fun x y => fst (body x st) = Some y) l ys.
Proof.
  intros Hb. revert ys. induction l as [|x l IH]; intros ys; simpl.
  - intros [= <-]. constructor.
  - rewrite bind_value by apply Hb.
    destruct (fst (body x st)) as [y|] eqn:Ey; [|discriminate].
    rewrite bind_value by now apply frame_each.
    destruct (fst (each body l st)) as [ys'|] eqn:Eys; [|discriminate].
    intros [= <-]. constructor; [exact Ey | now apply IH].
Qed.

(** The each block returns when its body returns on every entry. *)
Lemma each_returns {A B : Type} (body : A -> M B) (l : list A) (st : Store) :
  (forall a, frame (body a)) ->
  Forall (fun x => fst (body x st) <> None) l ->
  exists ys, fst (each body l st) = Some ys /\ length ys = length l.
Proof.
  intros Hb H. induction H as [|x l Hx _ [ys [IH1 IH2]]]; simpl.
  - now exists [].
  - rewrite bind_value by apply Hb.
    destruct (fst (body x st)) as [y|]; [|congruence].
    rewrite bind_value by now apply frame_each.
    rewrite IH1. exists (y :: ys). simpl. now rewrite IH2.
Qed.

(** The each block raises as soon as its body raises on one entry. *)
Lemma each_raises {A B : Type} (body : A -> M B) (l : list A) (st : Store) :
  (forall a, frame (body a)) ->
  Exists (fun x => fst (body x st) = None) l ->
  fst (each body l st) = None.
Proof.
  intros Hb H. induction H as [x l Hx|x l _ IH]; simpl.
  - rewrite bind_value by apply Hb. now rewrite Hx.
  - rewrite bind_value by apply Hb.
    destruct (fst (body x st)); [|reflexivity].
    rewrite bind_value by now apply frame_each.
    now rewrite IH.
Qed.

End Monad.

Section TemplateFacts.

Variable dedent : string -> string.
Variable C : Components.

Lemma frame_render_notes (v : option string) : frame (render_notes dedent C v).
Proof.
  unfold render_notes. destruct (truthy v); [|apply frame_ret].
  destruct v as [s|]; [|apply frame_ret].
  apply frame_bind; [apply frame_call|]. intros r. apply frame_ret.
Qed.

Lemma frame_render_section (e : ComparisonEntry) :
  frame (render_section dedent C e).
Proof.
  unfold render_section.
  repeat (apply frame_bind;
          [first [apply frame_call | apply frame_render_notes]|]; intros ?).
  apply frame_ret.
Qed.

Lemma frame_render_main : frame (render_main dedent C).
Proof.
  unfold render_main.
  apply frame_bind; [apply frame_read|]. intros ss.
  apply frame_bind; [apply frame_each, frame_render_section|]. intros secs.
  apply frame_ret.
Qed.

(** What the notes block returns. *)
Lemma render_notes_value (v : option string) (st : Store) :
  fst (render_notes dedent C v st) =
  if truthy v then
    match v with
    | Some s => option_map (fun r => [Raw r]) (Markdown C (dedent s))
    | None => Some []
    end
  else Some [].
Proof.
  unfold render_notes. destruct (truthy v); [|reflexivity].
  destruct v as [s|]; [|reflexivity].
  rewrite bind_value by apply frame_call. simpl.
  now destruct (Markdown C (dedent s)).
Qed.

Lemma render_notes_view (v : option string) (st : Store) (kids : list html) :
  fst (render_notes dedent C v st) = Some kids ->
  exists slot, notes_view dedent C v slot /\
               Elem "div" no_class kids = notes_slot slot.
Proof.
  rewrite render_notes_value. unfold notes_view.
  destruct (truthy v) eqn:Et.
  - destruct v as [s|]; [|discriminate Et].
    destruct (Markdown C (dedent s)) as [r|] eqn:Er; [|discriminate].
    intros [= <-]. exists (Some r). split; [|reflexivity]. now exists s, r.
  - intros [= <-]. now exists None.
Qed.

(** The body of the each block returns the section of its entry. *)
Lemma render_section_view (e : ComparisonEntry) (st : Store) (sec : html) :
  fst (render_section dedent C e st) = Some sec ->
  section_view dedent C e sec.
Proof.
  unfold render_section, section_view.
  rewrite bind_value by apply frame_call. cbn [call fst].
  destruct (Markdown C (dedent (description e))) as [md|]; [|discriminate].
  rewrite bind_value by apply frame_call. cbn [call fst].
  destruct (HighlightSvelte C (dedent (code (svelte e)))) as [a|];
    [|discriminate].
  rewrite bind_value by apply frame_call. cbn [call fst].
  destruct (HighlightAuto C (dedent (code (vue e)))) as [b|]; [|discriminate].
  rewrite bind_value by apply frame_render_notes.
  destruct (fst (render_notes dedent C (notes (svelte e)) st)) as [ka|] eqn:Ea;
    [|discriminate].
  rewrite bind_value by apply frame_render_notes.
  destruct (fst (render_notes dedent C (notes (vue e)) st)) as [kb|] eqn:Eb;
    [|discriminate].
  intros [= <-].
  destruct (render_notes_view _ _ _ Ea) as [na [Hna Ena]].
  destruct (render_notes_view _ _ _ Eb) as [nb [Hnb Enb]].
  exists md, a, b, na, nb. repeat split; try assumption.
  now rewrite Ena, Enb.
Qed.

(** The notes block returns exactly when its call, if any, returns. *)
Lemma render_notes_returns (v : option string) (st : Store) :
  fst (render_notes dedent C v st) <> None <->
  (forall s, v = Some s -> truthy (Some s) = true ->
             Markdown C (dedent s) <> None).
Proof.
  rewrite render_notes_value. destruct v as [s|].
  - destruct (truthy (Some s)) eqn:Et.
    + destruct (Markdown C (dedent s)) as [r|] eqn:Er; cbn [option_map].
      * split; [intros _ s' [= <-] _; congruence | discriminate].
      * split; [congruence|]. intros H. exfalso. now apply (H s).
    + split; [intros _ s' [= <-] Ht; congruence | discriminate].
  - cbn [truthy]. split; [intros _ s' H; discriminate | discriminate].
Qed.

(** The body of the each block returns exactly when its calls return. *)
Lemma render_section_returns (e : ComparisonEntry) (st : Store) :
  fst (render_section dedent C e st) <> None <-> calls_return dedent C e.
Proof.
  unfold render_section, calls_return.
  rewrite bind_value by apply frame_call. cbn [call fst].
  destruct (Markdown C (dedent (description e))) as [md|];
    [|split; [congruence | tauto]].
  rewrite bind_value by apply frame_call. cbn [call fst].
  destruct (HighlightSvelte C (dedent (code (svelte e)))) as [a|];
    [|split; [congruence | tauto]].
  rewrite bind_value by apply frame_call. cbn [call fst].
  destruct (HighlightAuto C (dedent (code (vue e)))) as [b|];
    [|split; [congruence | tauto]].
  pose proof (render_notes_returns (notes (svelte e)) st) as Ha.
  pose proof (render_notes_returns (notes (vue e)) st) as Hb.
  rewrite bind_value by apply frame_render_notes.
  destruct (fst (render_notes dedent C (notes (svelte e)) st)) as [ka|].
  - rewrite bind_value by apply frame_render_notes.
    destruct (fst (render_notes dedent C (notes (vue e)) st)) as [kb|].
    + split; [intros _|discriminate].
      repeat split; try discriminate; [apply Ha | apply Hb]; discriminate.
    + split; [congruence|]. intros (_ & _ & _ & _ & H).
      apply Hb in H. congruence.
  - split; [congruence|]. intros (_ & _ & _ & H & _).
    apply Ha in H. congruence.
Qed.

End TemplateFacts.

(** ** The composer: stated properties *)

Section Page.

Variable dedent : string -> string.
Variable C : Components.

(** The page is the heading followed by one section per entry, in the
    order of the store. *)
Lemma render_main_view (st : Store) (page : html) :
  fst (render_main dedent C st) = Some page ->
  exists secs,
    page = Elem "main" no_class
             (Elem "h1" no_class [Text "Svelte vs Vue"] :: secs) /\
    Forall2 (section_view dedent C) st secs.
Proof.
  unfold render_main.
  rewrite bind_value by apply frame_read. cbn [read_sections fst].
  rewrite bind_value by apply frame_each, frame_render_section.
  destruct (fst (each (render_section dedent C) st st)) as [secs|] eqn:E;
    [|discriminate].
  intros [= <-]. exists secs. split; [reflexivity|].
  apply each_value in E; [|apply frame_render_section].
  eapply Forall2_impl; [|exact E].
  intros e sec. apply render_section_view.
Qed.

(** The pass returns when every call it makes returns. *)
Lemma render_main_returns (st : Store) :
  Forall (calls_return dedent C) st ->
  exists page,
    render_main dedent C st = (Some page, st) /\
    length (page_entries page) = length st.
Proof.
  intros H.
  destruct (each_returns (render_section dedent C) st st) as [secs [E1 E2]].
  - apply frame_render_section.
  - eapply Forall_impl; [|exact H].
    intros e He. now apply render_section_returns.
  - exists (Elem "main" no_class
              (Elem "h1" no_class [Text "Svelte vs Vue"] :: secs)).
    split; [|exact E2].
    rewrite (surjective_pairing (render_main dedent C st)).
    rewrite frame_render_main. f_equal.
    unfold render_main.
    rewrite bind_value by apply frame_read. cbn [read_sections fst].
    rewrite bind_value by apply frame_each, frame_render_section.
    now rewrite E1.
Qed.

(** The pass raises when a call raises for some entry. *)
Lemma render_main_raises (st : Store) :
  Exists (fun e => ~ calls_return dedent C e) st ->
  fst (render_main dedent C st) = None.
Proof.
  intros H. unfold render_main.
  rewrite bind_value by apply frame_read. cbn [read_sections fst].
  rewrite bind_value by apply frame_each, frame_render_section.
  rewrite each_raises; [reflexivity | apply frame_render_section |].
  eapply Exists_impl; [|exact H].
  intros e He.
  destruct (fst (render_section dedent C e st)) eqn:E; [|reflexivity].
  exfalso. apply He. apply (render_section_returns dedent C e st).
  congruence.
Qed.

(** The page the pass returns, with the view of each of its sections. *)
Lemma render_main_page (st : Store) :
  Forall (calls_return dedent C) st ->
  exists secs,
    fst (render_main dedent C st) =
      Some (Elem "main" no_class
              (Elem "h1" no_class [Text "Svelte vs Vue"] :: secs)) /\
    Forall2 (section_view dedent C) st secs.
Proof.
  intros H. destruct (render_main_returns st H) as [page [E _]].
  assert (E' : fst (render_main dedent C st) = Some page) by now rewrite E.
  destruct (render_main_view st page E') as [secs [-> Hv]].
  now exists secs.
Qed.

(** C4.  When the components return on the texts of the entries, the
    pass returns a page in which, for every entry, the first code cell
    holds what [HighlightSvelte], the highlighter with the fixed language,
    returned for the normalised code of the Svelte variant, and the second
    holds what [HighlightAuto], the auto-detecting one, returned for the
    normalised code of the Vue variant. *)
Theorem highlight_asymmetric (st : Store) :
  Forall (calls_return dedent C) st ->
  exists page,
    fst (render_main dedent C st) = Some page /\
    Forall2
      (fun e sec =>
         exists a b,
           HighlightSvelte C (dedent (code (svelte e))) = Some a /\
           HighlightAuto C (dedent (code (vue e))) = Some b /\
           firstn 2 (entry_cells sec) =
             [code_cell "Svelte" a; code_cell "Vue" b])
      st (page_entries page).
Proof.
  intros H. destruct (render_main_page st H) as [secs [E Hv]].
  eexists. split; [exact E|].
  cbn [page_entries kids_of tl].
  eapply Forall2_impl; [|exact Hv].
  intros e sec (md & a & b & na & nb & _ & Ha & Hb & _ & _ & ->).
  exists a, b. repeat split; [exact Ha | exact Hb].
Qed.

(** C5.  When the components return on the texts of the entries, the
    pass returns a page whose entries carry the titles of the content
    model, element for element and in order. *)
Theorem titles_in_order (st : Store) :
  Forall (calls_return dedent C) st ->
  exists page,
    fst (render_main dedent C st) = Some page /\
    map entry_title (page_entries page) = map (fun e => Some (title e)) st.
Proof.
  intros H. destruct (render_main_page st H) as [secs [E Hv]].
  eexists. split; [exact E|].
  cbn [page_entries kids_of tl]. clear H E.
  induction Hv as [|e sec st' secs' Hs _ IH]; [reflexivity|].
  destruct Hs as (md & a & b & na & nb & _ & _ & _ & _ & _ & ->).
  cbn [map]. now rewrite IH.
Qed.

(** C6.  When the components return on the texts of the entries, the
    pass returns a page in which the grid of every entry has exactly four
    cells: two code cells followed by two notes slots; a notes slot is
    empty exactly when the notes of its variant are falsy. *)
Theorem four_cells_per_entry (st : Store) :
  Forall (calls_return dedent C) st ->
  exists page,
    fst (render_main dedent C st) = Some page /\
    Forall2
      (fun e sec =>
         exists a b na nb,
           entry_cells sec =
             [code_cell "Svelte" a; code_cell "Vue" b;
              notes_slot na; notes_slot nb] /\
           (na = None <-> truthy (notes (svelte e)) = false) /\
           (nb = None <-> truthy (notes (vue e)) = false))
      st (page_entries page).
Proof.
  intros H. destruct (render_main_page st H) as [secs [E Hv]].
  eexists. split; [exact E|].
  cbn [page_entries kids_of tl].
  eapply Forall2_impl; [|exact Hv].
  intros e sec (md & a & b & na & nb & _ & _ & _ & Hna & Hnb & ->).
  exists a, b, na, nb. split; [reflexivity|].
  unfold notes_view in Hna, Hnb.
  split.
  - destruct (truthy (notes (svelte e))).
    + destruct Hna as (s & r & _ & _ & ->). split; discriminate.
    + now split.
  - destruct (truthy (notes (vue e))).
    + destruct Hnb as (s & r & _ & _ & ->). split; discriminate.
    + now split.
Qed.

(** C7, as amended.  The template has no handler.  When every call it
    makes for every entry returns, the pass returns a page with one
    section per entry; when a call raises for some entry, the pass raises
    and there is no page. *)
Theorem render_main_returns_or_raises (st : Store) :
  (Forall (calls_return dedent C) st ->
   exists page,
     render_main dedent C st = (Some page, st) /\
     length (page_entries page) = length st) /\
  (Exists (fun e => ~ calls_return dedent C e) st ->
   fst (render_main dedent C st) = None).
Proof.
  split; [apply render_main_returns | apply render_main_raises].
Qed.

(** C9.  The render pass leaves the content model as it found it,
    whatever the components return and whether or not the pass raises. *)
Theorem render_main_reads_only (st : Store) :
  snd (render_main dedent C st) = st.
Proof. apply frame_render_main. Qed.

(** C10.  In the page's own [sections] both notes of every entry are
    present and non-empty; so, when the components return on the texts of
    the entries, each notes slot of the returned page holds the markdown
    of the normalised notes of its variant and the empty branch is not
    taken. *)
Theorem notes_always_rendered :
  Forall (fun e => truthy (notes (svelte e)) = true /\
                   truthy (notes (vue e)) = true) sections /\
  (Forall (calls_return dedent C) sections ->
   exists page,
     fst (render_main dedent C sections) = Some page /\
     Forall2
       (fun e sec =>
          exists sa sb ra rb,
            notes (svelte e) = Some sa /\ notes (vue e) = Some sb /\
            Markdown C (dedent sa) = Some ra /\
            Markdown C (dedent sb) = Some rb /\
            skipn 2 (entry_cells sec) =
              [notes_slot (Some ra); notes_slot (Some rb)])
       sections (page_entries page)).
Proof.
  assert (Ht : Forall (fun e => truthy (notes (svelte e)) = true /\
                                truthy (notes (vue e)) = true) sections)
    by (repeat constructor).
  split; [exact Ht|].
  intros H. destruct (render_main_page sections H) as [secs [E Hv]].
  eexists. split; [exact E|].
  cbn [page_entries kids_of tl]. clear H E.
  revert Ht Hv. generalize sections. intros st Ht Hv.
  induction Hv as [|e sec st' secs' Hs _ IH]; [constructor|].
  inversion Ht as [|? ? [Hta Htb] Ht']; subst.
  constructor; [|now apply IH].
  destruct Hs as (md & a & b & na & nb & _ & _ & _ & Hna & Hnb & ->).
  unfold notes_view in Hna, Hnb. rewrite Hta in Hna. rewrite Htb in Hnb.
  destruct Hna as (sa & ra & Ea & Era & ->).
  destruct Hnb as (sb & rb & Eb & Erb & ->).
  exists sa, sb, ra, rb. repeat split; assumption.
Qed.

End Page.

(** ** Instances on the sample entries *)

(** The components of [echo] return on every text. *)
Lemma calls_return_echo (e : ComparisonEntry) : calls_return dedent echo e.
Proof. repeat split; try discriminate; intros; discriminate. Defined.

Lemma all_calls_return_echo (st : Store) :
  Forall (calls_return dedent echo) st.
Proof.
  induction st as [|e st IH]; constructor;
    [apply calls_return_echo | exact IH].
Defined.

Lemma dedent_idempotent_iff_witness :
  (Forall (fun l => leading l = 0) (split_lines (dedent reference_text)) /\
   dedent (dedent reference_text) = dedent reference_text) /\
  (Exists (fun l => indented l = true) (split_lines (dedent stepped)) /\
   dedent (dedent stepped) <> dedent stepped).
Proof.
  assert (H1 : Forall (fun l => leading l = 0)
                      (split_lines (dedent reference_text)))
    by (repeat constructor).
  assert (H2 : Exists (fun l => indented l = true)
                      (split_lines (dedent stepped)))
    by (right; left; reflexivity).
  split; split; try assumption.
  - apply (proj1 (proj2 (dedent_idempotent_iff reference_text)) H1).
  - apply (proj2 (proj2 (dedent_idempotent_iff stepped)) H2).
Defined.

Lemma dedent_keeps_interior_lines_witness :
  mindent (split_lines derived_vue_code) = Some 10 /\
  blank "            " = true /\
  String.length (cut 10 "            ") = 2 /\
  blank (cut 10 "            ") = true.
Proof.
  assert (H : mindent (split_lines derived_vue_code) = Some 10)
    by (vm_compute; reflexivity).
  destruct (proj2 (proj2 (proj2 (proj2
              (dedent_keeps_interior_lines derived_vue_code)))) 10 H)
    as (_ & _ & Hl).
  destruct (Hl "            " eq_refl) as (Hb & _ & Hs & _).
  split; [exact H|]. split; [reflexivity|].
  split; [apply (Hs eq_refl) | exact Hb].
Defined.


Lemma highlight_asymmetric_witness :
  Forall (calls_return dedent echo) sample_store /\
  exists page,
    fst (render_main dedent echo sample_store) = Some page /\
    Forall2
      (fun e sec =>
         exists a b,
           HighlightSvelte echo (dedent (code (svelte e))) = Some a /\
           HighlightAuto echo (dedent (code (vue e))) = Some b /\
           firstn 2 (entry_cells sec) =
             [code_cell "Svelte" a; code_cell "Vue" b])
      sample_store (page_entries page).
Proof.
  assert (H : Forall (calls_return dedent echo) sample_store)
    by apply all_calls_return_echo.
  split; [exact H|].
  apply (highlight_asymmetric dedent echo sample_store H).
Defined.

Lemma titles_in_order_witness :
  Forall (calls_return dedent echo) sample_store /\
  exists page,
    fst (render_main dedent echo sample_store) = Some page /\
    map entry_title (page_entries page) = [Some "Y"; Some "X"].
Proof.
  assert (H : Forall (calls_return dedent echo) sample_store)
    by apply all_calls_return_echo.
  split; [exact H|].
  apply (titles_in_order dedent echo sample_store H).
Defined.

Lemma four_cells_per_entry_witness :
  Forall (calls_return dedent echo) sample_store /\
  exists page,
    fst (render_main dedent echo sample_store) = Some page /\
    Forall2
      (fun e sec =>
         exists a b na nb,
           entry_cells sec =
             [code_cell "Svelte" a; code_cell "Vue" b;
              notes_slot na; notes_slot nb] /\
           (na = None <-> truthy (notes (svelte e)) = false) /\
           (nb = None <-> truthy (notes (vue e)) = false))
      sample_store (page_entries page).
Proof.
  assert (H : Forall (calls_return dedent echo) sample_store)
    by apply all_calls_return_echo.
  split; [exact H|].
  apply (four_cells_per_entry dedent echo sample_store H).
Defined.

Lemma render_main_returns_or_raises_witness :
  (exists page,
     render_main dedent echo sample_store = (Some page, sample_store) /\
     length (page_entries page) = length sample_store) /\
  fst (render_main dedent picky sample_store) = None.
Proof.
  split.
  - apply (proj1 (render_main_returns_or_raises dedent echo sample_store)).
    apply all_calls_return_echo.
  - apply (proj2 (render_main_returns_or_raises dedent picky sample_store)).
    right. left. intros (_ & _ & H & _). now apply H.
Defined.

(** C7, the claim as stated fails: the auto-detecting highlighter raises
    on the code of the second entry only, and the pass returns no page at
    all, so the first entry is lost with it. *)
Lemma raising_highlighter_aborts :
  HighlightAuto picky (dedent (code (vue example_entry))) = None /\
  calls_return dedent picky plain_entry /\
  fst (render_main dedent picky sample_store) = None.
Proof.
  split; [reflexivity|]. split; [|reflexivity].
  repeat split; try discriminate; intros; discriminate.
Qed.

Lemma notes_always_rendered_witness :
  Forall (calls_return dedent echo) sections /\
  exists page,
    fst (render_main dedent echo sections) = Some page /\
    Forall2
      (fun e sec =>
         exists sa sb ra rb,
           notes (svelte e) = Some sa /\ notes (vue e) = Some sb /\
           Markdown echo (dedent sa) = Some ra /\
           Markdown echo (dedent sb) = Some rb /\
           skipn 2 (entry_cells sec) =
             [notes_slot (Some ra); notes_slot (Some rb)])
      sections (page_entries page).
Proof.
  assert (H : Forall (calls_return dedent echo) sections)
    by apply all_calls_return_echo.
  split; [exact H|].
  apply (proj2 (notes_always_rendered dedent echo) H).
Defined.

(** The sample page is what the pass returns on the sample store, and the
    page of the specification's example: markup for the description, the
    two codes and the one note, and an empty notes slot for the first
    variant. *)
Example render_sample :
  render_main dedent echo sample_store = (Some sample_page, sample_store).
Proof. reflexivity. Qed.

(** * Further properties of the composer *)

Section Values.

Lemma Forall2_same {A : Type} (R : A -> A -> Prop) (l : list A) :
  (forall x, R x x) -> Forall2 R l l.
Proof. intros H. induction l; constructor; auto. Qed.

Lemma Forall2_lookup {A B : Type} (R : A -> B -> Prop)
    (l : list A) (l' : list B) (i : nat) (x : A) :
  Forall2 R l l' -> nth_error l i = Some x ->
  exists y, nth_error l' i = Some y /\ R x y.
Proof.
  intros H. revert i. induction H as [|a b l l' Hab _ IH]; intros [|i] Hi;
    simpl in *; try discriminate.
  - injection Hi as <-. now exists b.
  - now apply IH.
Qed.

(** The value of an each block depends on the values of its body only. *)
Lemma each_value_ext {A A' B : Type} (body : A -> M B) (body' : A' -> M B)
    (l : list A) (l' : list A') (st st' : Store) :
  (forall a, frame (body a)) -> (forall a, frame (body' a)) ->
  Forall2 (fun x x' => fst (body x st) = fst (body' x' st')) l l' ->
  fst (each body l st) = fst (each body' l' st').
Proof.
  intros Hb Hb' H. induction H as [|x x' l l' Hx _ IH]; [reflexivity|].
  simpl. rewrite !bind_value by (apply Hb || apply Hb').
  rewrite Hx. destruct (fst (body' x' st')) as [y|]; [|reflexivity].
  rewrite !bind_value by (apply frame_each; (apply Hb || apply Hb')).
  rewrite IH. now destruct (fst (each body' l' st')).
Qed.

(** An each block over two lists in a row. *)
Lemma each_app {A B : Type} (body : A -> M B) (l1 l2 : list A) (st : Store) :
  (forall a, frame (body a)) ->
  fst (each body (l1 ++ l2)%list st) =
  match fst (each body l1 st), fst (each body l2 st) with
  | Some ys1, Some ys2 => Some (ys1 ++ ys2)%list
  | _, _ => None
  end.
Proof.
  intros Hb. induction l1 as [|x l1 IH].
  - simpl. now destruct (fst (each body l2 st)).
  - cbn [app each]. rewrite !bind_value by apply Hb.
    destruct (fst (body x st)) as [y|]; [|reflexivity].
    rewrite !bind_value by now apply frame_each.
    rewrite IH.
    destruct (fst (each body l1 st)) as [ys1|]; [|reflexivity].
    now destruct (fst (each body l2 st)).
Qed.

Lemma render_notes_present (d : string -> string) (C : Components)
    (v : option string) :
  render_notes d C (present v) = render_notes d C v.
Proof.
  unfold render_notes, present.
  destruct (truthy v) eqn:E; [now rewrite E | reflexivity].
Qed.

(** The section of an entry depends on the normaliser and the components
    through the calls of the template only, and not on the store. *)
Lemma render_section_ext (d d' : string -> string) (C C' : Components)
    (e : ComparisonEntry) (st st' : Store) :
  agree d d' C C' e ->
  fst (render_section d C e st) = fst (render_section d' C' e st').
Proof.
  intros (H1 & H2 & H3 & H4 & H5). unfold render_section.
  rewrite !bind_value by apply frame_call. cbn [call fst]. rewrite H1.
  destruct (Markdown C' (d' (description e))) as [md|]; [|reflexivity].
  rewrite !bind_value by apply frame_call. cbn [call fst]. rewrite H2.
  destruct (HighlightSvelte C' (d' (code (svelte e)))) as [a|]; [|reflexivity].
  rewrite !bind_value by apply frame_call. cbn [call fst]. rewrite H3.
  destruct (HighlightAuto C' (d' (code (vue e)))) as [b|]; [|reflexivity].
  assert (Hn : forall v,
    (forall s, v = Some s -> truthy (Some s) = true ->
               Markdown C (d s) = Markdown C' (d' s)) ->
    fst (render_notes d C v st) = fst (render_notes d' C' v st')).
  { intros v Hv. rewrite !render_notes_value.
    destruct v as [s|]; [|reflexivity].
    destruct (truthy (Some s)) eqn:E; [|reflexivity].
    now rewrite (Hv s eq_refl E). }
  rewrite !bind_value by apply frame_render_notes.
  rewrite (Hn _ H4).
  destruct (fst (render_notes d' C' (notes (svelte e)) st')) as [na|];
    [|reflexivity].
  rewrite !bind_value by apply frame_render_notes.
  rewrite (Hn _ H5).
  now destruct (fst (render_notes d' C' (notes (vue e)) st')).
Qed.

Lemma agree_same (d : string -> string) (C : Components)
    (e : ComparisonEntry) :
  agree d d C C e.
Proof. repeat split. Qed.

(** What the pass returns, by the each block. *)
Lemma render_main_value (d : string -> string) (C : Components) (st : Store) :
  fst (render_main d C st) =
  option_map page_of (fst (each (render_section d C) st st)).
Proof.
  unfold render_main.
  rewrite bind_value by apply frame_read. cbn [read_sections fst].
  rewrite bind_value by apply frame_each, frame_render_section.
  now destruct (fst (each (render_section d C) st st)).
Qed.

(** The each block of the page does not look at the store. *)
Lemma each_section_store_free (d : string -> string) (C : Components)
    (l : list ComparisonEntry) (st st' : Store) :
  fst (each (render_section d C) l st) = fst (each (render_section d C) l st').
Proof.
  apply each_value_ext; try apply frame_render_section.
  apply Forall2_same. intros e. apply render_section_ext, agree_same.
Qed.

End Values.

(** X1.  When the components return on the texts of the entries, every
    section of the returned page holds, as its second child, what
    [Markdown] returned for the normalised description of its entry; the
    description has no guard, so this also holds for an empty one. *)
Theorem description_rendered (d : string -> string) (C : Components)
    (st : Store) :
  Forall (calls_return d C) st ->
  exists page,
    fst (render_main d C st) = Some page /\
    Forall2
      (fun e sec =>
         exists md,
           Markdown C (d (description e)) = Some md /\
           entry_description sec = Some md)
      st (page_entries page).
Proof.
  intros H. destruct (render_main_page d C st H) as [secs [E Hv]].
  eexists. split; [exact E|].
  cbn [page_entries kids_of tl].
  eapply Forall2_impl; [|exact Hv].
  intros e sec (md & a & b & na & nb & Hmd & _ & _ & _ & _ & ->).
  now exists md.
Qed.

(** X2.  Notes that are the empty string count as missing: taking them
    out of every entry changes nothing in what the pass returns, whatever
    the components do, [Markdown] on the empty text included. *)
Theorem empty_notes_as_absent (d : string -> string) (C : Components)
    (st : Store) :
  fst (render_main d C (map without_empty_notes st)) =
  fst (render_main d C st).
Proof.
  rewrite !render_main_value. f_equal.
  apply each_value_ext; try apply frame_render_section.
  enough (G : forall l s1 s2,
    Forall2 (fun x x' => fst (render_section d C x s1) =
                         fst (render_section d C x' s2))
            (map without_empty_notes l) l) by apply G.
  intros l s1 s2.
  induction l as [|e l IH]; constructor; [|exact IH].
  unfold render_section. cbn [without_empty_notes title description
    svelte vue code notes].
  rewrite !render_notes_present.
  apply (render_section_ext d d C C e), agree_same.
Qed.

(** X3.  Rendering is entry by entry: the pass on two content models in
    a row returns exactly when it returns on each, and its sections are
    the sections of the first page followed by those of the second. *)
Theorem render_main_app (d : string -> string) (C : Components)
    (st1 st2 : Store) :
  fst (render_main d C (st1 ++ st2)%list) =
  match fst (render_main d C st1), fst (render_main d C st2) with
  | Some p1, Some p2 => Some (page_of (page_entries p1 ++ page_entries p2)%list)
  | _, _ => None
  end.
Proof.
  rewrite !render_main_value.
  rewrite each_app by apply frame_render_section.
  rewrite (each_section_store_free d C st1 (st1 ++ st2)%list st1).
  rewrite (each_section_store_free d C st2 (st1 ++ st2)%list st2).
  destruct (fst (each (render_section d C) st1 st1)) as [s1|]; [|reflexivity].
  now destruct (fst (each (render_section d C) st2 st2)).
Qed.

(** X4.  The page depends on the normaliser and on the components only
    through the calls the template makes: the normalised description, the
    normalised codes and the normalised truthy notes of each entry.  Two
    set-ups that answer these calls alike return the same page or raise
    alike. *)
Theorem render_main_ext (d d' : string -> string) (C C' : Components)
    (st : Store) :
  Forall (agree d d' C C') st ->
  fst (render_main d C st) = fst (render_main d' C' st).
Proof.
  intros H. rewrite !render_main_value. f_equal.
  apply each_value_ext; try apply frame_render_section.
  enough (G : forall s1 s2,
    Forall2 (fun x x' => fst (render_section d C x s1) =
                         fst (render_section d' C' x' s2)) st st)
    by apply G.
  intros s1 s2.
  induction H as [|e st' He _ IH]; constructor; [|exact IH].
  now apply render_section_ext.
Qed.

(** X5.  The section at a position of the returned page is the section
    of the entry at that position of the content model, the one the pass
    returns for that entry alone. *)
Theorem section_by_index (d : string -> string) (C : Components)
    (st : Store) (page : html) (i : nat) (e : ComparisonEntry) :
  fst (render_main d C st) = Some page ->
  nth_error st i = Some e ->
  exists sec,
    nth_error (page_entries page) i = Some sec /\
    fst (render_main d C [e]) = Some (page_of [sec]).
Proof.
  rewrite !render_main_value. intros H Hi.
  destruct (fst (each (render_section d C) st st)) as [secs|] eqn:E;
    [|discriminate].
  injection H as <-.
  apply each_value in E; [|apply frame_render_section].
  destruct (Forall2_lookup _ _ _ _ _ E Hi) as [sec [Hsec Hr]].
  exists sec. split; [exact Hsec|].
  cbn [each]. rewrite bind_value by apply frame_render_section.
  rewrite (render_section_ext d d C C e [e] st) by apply agree_same.
  rewrite Hr. reflexivity.
Qed.

(** ** Instances of the further properties *)

Lemma description_rendered_witness :
  Forall (calls_return dedent echo) [bare_entry] /\
  exists page,
    fst (render_main dedent echo [bare_entry]) = Some page /\
    Forall2
      (fun e sec =>
         exists md,
           Markdown echo (dedent (description e)) = Some md /\
           entry_description sec = Some md)
      [bare_entry] (page_entries page).
Proof.
  assert (H : Forall (calls_return dedent echo) [bare_entry])
    by apply all_calls_return_echo.
  split; [exact H|].
  apply (description_rendered dedent echo [bare_entry] H).
Defined.

Lemma picky_agrees_on_plain : agree dedent dedent echo picky plain_entry.
Proof.
  repeat split; intros s [= <-] _; reflexivity.
Defined.

Lemma render_main_ext_witness :
  Forall (agree dedent dedent echo picky) [plain_entry] /\
  fst (render_main dedent echo [plain_entry]) =
  fst (render_main dedent picky [plain_entry]).
Proof.
  assert (H : Forall (agree dedent dedent echo picky) [plain_entry])
    by (constructor; [apply picky_agrees_on_plain | constructor]).
  split; [exact H|].
  apply (render_main_ext dedent dedent echo picky [plain_entry] H).
Defined.

Lemma section_by_index_witness :
  fst (render_main dedent echo sample_store) = Some sample_page /\
  nth_error sample_store 1 = Some example_entry /\
  exists sec,
    nth_error (page_entries sample_page) 1 = Some sec /\
    fst (render_main dedent echo [example_entry]) = Some (page_of [sec]).
Proof.
  split; [reflexivity|]. split; [reflexivity|].
  apply (section_by_index dedent echo sample_store sample_page 1
           example_entry eq_refl eq_refl).
Defined.

(** Empty notes leave an empty slot, here the fourth cell. *)
Example bare_entry_page :
  fst (render_main dedent echo [bare_entry]) =
  Some (page_of
    [ Elem "section" no_class
        [ Elem "h2" "section-header" [Text "Z"];
          Raw EmptyString;
          Elem "div" "side-by-side"
            [ code_cell "Svelte" "let a"; code_cell "Vue" "let b";
              notes_slot (Some "- a"); notes_slot None ] ] ]).
Proof. reflexivity. Qed.
